(** * routers/image_downloader.py: the image router of BilibiliHistoryFetcher

    A shallow embedding of the four route handlers of
    [src/routers/image_downloader.py] ([start_download], [get_status],
    [clear_images], [get_local_image]) and the properties of the
    specification that concern them.

    Conventions of the embedding.
    - A Python [str] is a list of Unicode code points ([pystr]); slicing
      ([file_hash[:2]], [ext[1:]]) therefore counts code points, as Python
      does.  String literals are written as in the source and read through
      [py], a UTF-8 decoder.
    - Handlers run in the monad [M]: a state (the world the collaborators
      [scripts.image_downloader.ImageDownloader] and [scripts.utils] act
      on), a trace of observable events, and a result that is either a
      value or a raised exception.  State changes made before an exception
      is raised are kept, as in Python.
    - [exn] stands for what Python can raise: instances of [Exception]
      (fastapi's [HTTPException] apart from the others), which the handlers'
      [except Exception] clauses catch, and instances of [BaseException]
      outside [Exception] ([KeyboardInterrupt], [SystemExit],
      [asyncio.CancelledError]), which they do not catch.
    - [os.path.join] is POSIX [posixpath.join]. *)

From Stdlib Require Import List String Ascii ZArith NArith Bool Lia DecimalString.
From Stdlib Require Import DecimalZ DecimalPos.
Import ListNotations.

Set Implicit Arguments.
Set Warnings "-register-all".

(** ** Python strings *)

Definition pystr : Type := list N.

Definition cont (b : N) : N := N.land b 63.

(** UTF-8 decoding of the bytes of a literal (ill-formed tails are kept as
    they are; no literal of the source has one). *)
Fixpoint utf8_decode (bs : list N) : pystr :=
  match bs with
  | [] => []
  | b0 :: r0 =>
      if (b0 <? 128)%N then b0 :: utf8_decode r0
      else if (b0 <? 224)%N then
        match r0 with
        | b1 :: r1 => (N.shiftl (N.land b0 31) 6 + cont b1)%N :: utf8_decode r1
        | [] => [b0]
        end
      else if (b0 <? 240)%N then
        match r0 with
        | b1 :: b2 :: r2 =>
            (N.shiftl (N.land b0 15) 12 + N.shiftl (cont b1) 6 + cont b2)%N
              :: utf8_decode r2
        | _ => b0 :: r0
        end
      else
        match r0 with
        | b1 :: b2 :: b3 :: r3 =>
            (N.shiftl (N.land b0 7) 18 + N.shiftl (cont b1) 12
             + N.shiftl (cont b2) 6 + cont b3)%N :: utf8_decode r3
        | _ => b0 :: r0
        end
  end.

Definition py (s : string) : pystr :=
  utf8_decode (map N_of_ascii (list_ascii_of_string s)).

(** [a == b] on [str]. *)
Fixpoint str_eqb (a b : pystr) : bool :=
  match a, b with
  | [], [] => true
  | x :: a', y :: b' => (x =? y)%N && str_eqb a' b'
  | _, _ => false
  end.

(** [x in (t1, t2, ...)]. *)
Definition py_in (x : pystr) (t : list pystr) : bool := existsb (str_eqb x) t.

(** [s.startswith(p)] and [s.endswith(p)]. *)
Fixpoint startswith (s p : pystr) : bool :=
  match p, s with
  | [], _ => true
  | y :: p', x :: s' => (x =? y)%N && startswith s' p'
  | _ :: _, [] => false
  end.

Definition endswith (s p : pystr) : bool := startswith (rev s) (rev p).

(** [s[:n]] and [s[n:]] for a non-negative literal [n]: total on every
    string, shorter strings are returned whole (resp. give the empty
    string). *)
Definition slice_to (n : nat) (s : pystr) : pystr := firstn n s.
Definition slice_from (n : nat) (s : pystr) : pystr := skipn n s.

(** [str(i)] for an [int]. *)
Definition str_of_int (i : Z) : pystr := py (NilZero.string_of_int (Z.to_int i)).

(** ** os.path *)

Definition sep : pystr := py "/".

(** [os.path.join(a, b)] (posixpath): an absolute [b] discards [a]; otherwise
    [b] is appended, with a separator unless [a] is empty or ends in one. *)
Definition os_path_join (a b : pystr) : pystr :=
  if startswith b sep then b
  else if match a with [] => true | _ => endswith a sep end then a ++ b
  else a ++ sep ++ b.

(** ** Exceptions, values and observable events *)

(** What can be raised: fastapi's [HTTPException], the other instances of
    [Exception], and the instances of [BaseException] that are not instances
    of [Exception]; the last two are known by their [str(e)]. *)
Inductive exn : Type :=
| HTTPException (status_code : Z) (detail : pystr)
| Exception (message : pystr)
| BaseException (message : pystr).

(** [isinstance(e, HTTPException)]. *)
Definition isinstance_HTTPException (e : exn) : bool :=
  match e with HTTPException _ _ => true | _ => false end.

(** [isinstance(e, Exception)]: what [except Exception] matches. *)
Definition isinstance_Exception (e : exn) : bool :=
  match e with BaseException _ => false | _ => true end.

(** [str(e)]; an [HTTPException] prints as [status_code: detail]. *)
Definition str_exn (e : exn) : pystr :=
  match e with
  | HTTPException c d => str_of_int c ++ py ": " ++ d
  | Exception m => m
  | BaseException m => m
  end.

(** The JSON-like values the handlers return; a [dict] keeps its insertion
    order. *)
Inductive pyval : Type :=
| PStr (s : pystr)
| PBool (b : bool)
| PInt (i : Z)
| PList (l : list pyval)
| PDict (d : list (pystr * pyval)).

(** [d.get(k)]. *)
Fixpoint dict_get (k : pystr) (d : list (pystr * pyval)) : option pyval :=
  match d with
  | [] => None
  | (k', v) :: d' => if str_eqb k k' then Some v else dict_get k d'
  end.

(** [FileResponse(path, media_type=...)]. *)
Record FileResponse : Type := { path : pystr; media_type : pystr }.

(** [background_tasks.add_task(downloader.start_download, year)]: the only
    callable ever queued is the downloader's [start_download]. *)
Inductive task : Type :=
| downloader_start_download (year : option Z).

Definition BackgroundTasks : Type := list task.

Definition add_task (background_tasks : BackgroundTasks) (t : task) : BackgroundTasks :=
  background_tasks ++ [t].

Inductive event : Type :=
| Print (line : pystr)                      (* print(line) *)
| PathExists (p : pystr)                    (* os.path.exists(p) *)
| Call_get_output_path (name : pystr)       (* scripts.utils.get_output_path(name) *)
| Call_clear_all_images                     (* downloader.clear_all_images() *)
| Call_get_download_stats                   (* downloader.get_download_stats() *)
| Call_start_download (year : option Z)     (* downloader.start_download(year) *)
| Response (body : pyval).                  (* the HTTP response leaves the server *)

(** Everything but [print] and the response touches the file system or the
    downloader. *)
Definition is_print (ev : event) : bool :=
  match ev with Print _ => true | _ => false end.

(** The paths handed to [os.path.exists], in order. *)
Fixpoint probed (tr : list event) : list pystr :=
  match tr with
  | [] => []
  | PathExists p :: tr' => p :: probed tr'
  | _ :: tr' => probed tr'
  end.

(** ** The collaborators that are not part of this file *)

(** An action of a collaborator on the state of type [St]. *)
Definition action (St A : Type) : Type := St -> (exn + A) * St.

Module ImageDownloader.
(** [scripts.image_downloader.ImageDownloader], by its three methods. *)
Record t (St : Type) : Type := {
  start_download : option Z -> action St unit;
  get_download_stats : action St pyval;
  clear_all_images : action St bool
}.
End ImageDownloader.

(** The module-level [downloader], [scripts.utils.get_output_path] and
    [os.path.exists] (which reads the state and never raises). *)
Record World (St : Type) : Type := {
  downloader : ImageDownloader.t St;
  get_output_path : pystr -> action St pystr;
  os_path_exists : pystr -> St -> bool
}.

(** ** The handler monad *)

Definition M (St A : Type) : Type :=
  St * list event -> (exn + A) * (St * list event).

Definition ret {St A} (a : A) : M St A := fun s => (inr a, s).

Definition bind {St A B} (m : M St A) (k : A -> M St B) : M St B :=
  fun s => match m s with
           | (inr a, s') => k a s'
           | (inl e, s') => (inl e, s')
           end.

Definition raise {St A} (e : exn) : M St A := fun s => (inl e, s).

(** [try: body except Exception as e: handler e]; an exception the clause
    does not match goes on. *)
Definition try_except {St A} (body : M St A) (handler : exn -> M St A) : M St A :=
  fun s => match body s with
           | (inl e, s') => if isinstance_Exception e then handler e s' else (inl e, s')
           | (inr a, s') => (inr a, s')
           end.

Definition emit {St} (ev : event) : M St unit :=
  fun s => (inr tt, (fst s, snd s ++ [ev])).

(** A collaborator is called: the call is logged, its effect applied. *)
Definition call {St A} (ev : event) (f : action St A) : M St A :=
  fun s => let (r, st') := f (fst s) in (r, (st', snd s ++ [ev])).

Definition exists_ {St} (W : World St) (p : pystr) : M St bool :=
  fun s => (inr (os_path_exists W p (fst s)), (fst s, snd s ++ [PathExists p])).

Declare Scope py_scope.
Delimit Scope py_scope with py.
Notation "x <- m ;; k" := (bind m (fun x => k))
  (at level 61, m at next level, right associativity) : py_scope.
Notation "m ;; k" := (bind m (fun _ => k))
  (at level 61, right associativity) : py_scope.
Open Scope py_scope.

(** ** The route handlers *)

(** The tuple of line 107. *)
Definition EXTENSIONS : list pystr :=
  [py ".jpg"; py ".jpeg"; py ".png"; py ".webp"; py ".gif"].

(** The tuple of line 86. *)
Definition IMAGE_TYPES : list pystr := [py "covers"; py "avatars"].

(** Lines 95-97 and 108: the names the handler gives to the paths it builds. *)
Definition type_path (base_path image_type : pystr) : pystr :=
  os_path_join base_path image_type.

Definition sub_dir (file_hash : pystr) : pystr := slice_to 2 file_hash.

Definition img_dir (base_path image_type file_hash : pystr) : pystr :=
  os_path_join (type_path base_path image_type) (sub_dir file_hash).

Definition img_path (img_dir file_hash ext : pystr) : pystr :=
  os_path_join img_dir (file_hash ++ ext).

(** Line 113: [f"image/{ext[1:]}" if ext != '.jpg' else "image/jpeg"]. *)
Definition media_type_of (ext : pystr) : pystr :=
  if negb (str_eqb ext (py ".jpg")) then py "image/" ++ slice_from 1 ext
  else py "image/jpeg".

Section Router.

Variable St : Type.
Variable W : World St.

(** [POST /start] (lines 12-28). *)
Definition start_download (background_tasks : BackgroundTasks) (year : option Z)
  : M St (pyval * BackgroundTasks) :=
  let background_tasks := add_task background_tasks (downloader_start_download year) in
  ret (PDict [ (py "status", PStr (py "success"));
               (py "message",
                PStr (py "开始下载"
                      ++ match year with
                         | None => py "所有年份"
                         | Some y => str_of_int y ++ py "年"
                         end
                      ++ py "的图片")) ],
       background_tasks).

(** [GET /status] (lines 30-38). *)
Definition get_status : M St pyval :=
  stats <- call Call_get_download_stats
             (ImageDownloader.get_download_stats (downloader W)) ;;
  ret (PDict [ (py "status", PStr (py "success")); (py "data", stats) ]).

(** [POST /clear] (lines 40-68). *)
Definition clear_images : M St pyval :=
  try_except
    (success <- call Call_clear_all_images
                  (ImageDownloader.clear_all_images (downloader W)) ;;
     if success : bool then
       ret (PDict [ (py "status", PStr (py "success"));
                    (py "message", PStr (py "已清空所有图片和下载状态"));
                    (py "data",
                     PDict [ (py "cleared_paths",
                              PList [ PStr (py "output/images/covers");
                                      PStr (py "output/images/avatars");
                                      PStr (py "output/images/orphaned_covers");
                                      PStr (py "output/images/orphaned_avatars") ]);
                             (py "status_file",
                              PStr (py "output/download_status.json")) ]) ])
     else
       ret (PDict [ (py "status", PStr (py "error"));
                    (py "message",
                     PStr (py "清空图片失败，请查看日志了解详细信息")) ]))
    (fun e =>
       ret (PDict [ (py "status", PStr (py "error"));
                    (py "message",
                     PStr (py "清空图片时发生错误: " ++ str_exn e)) ])).

(** The loop of lines 107-114; [Some] is its early [return], [None] falling
    off its end. *)
Fixpoint probe (img_dir file_hash : pystr) (exts : list pystr)
  : M St (option FileResponse) :=
  match exts with
  | [] => ret None
  | ext :: exts' =>
      let img_path := img_path img_dir file_hash ext in
      found <- exists_ W img_path ;;
      if found : bool then
        emit (Print (py "找到图片文件: " ++ img_path)) ;;
        ret (Some {| path := img_path; media_type := media_type_of ext |})
      else probe img_dir file_hash exts'
  end.

(** [GET /local/{image_type}/{file_hash}] (lines 70-129). *)
Definition get_local_image (image_type file_hash : pystr) : M St FileResponse :=
  emit (Print ([10%N] ++ py "=== 获取本地图片 ===")) ;;
  emit (Print (py "图片类型: " ++ image_type)) ;;
  emit (Print (py "文件哈希: " ++ file_hash)) ;;
  if negb (py_in image_type IMAGE_TYPES) then
    raise (HTTPException 400 (py "无效的图片类型: " ++ image_type))
  else
    try_except
      (base_path <- call (Call_get_output_path (py "images"))
                      (get_output_path W (py "images")) ;;
       let img_dir := img_dir base_path image_type file_hash in
       dir_found <- exists_ W img_dir ;;
       if negb dir_found then
         raise (HTTPException 404 (py "图片不存在: " ++ file_hash))
       else
         r <- probe img_dir file_hash EXTENSIONS ;;
         match r with
         | Some response => ret response
         | None => raise (HTTPException 404 (py "图片不存在: " ++ file_hash))
         end)
      (fun e =>
         if isinstance_HTTPException e then raise e
         else
           emit (Print (py "获取本地图片时出错: " ++ str_exn e)) ;;
           raise (HTTPException 500 (py "获取图片失败: " ++ str_exn e))).

(** Modelled from FastAPI's documented behaviour (the framework is not part
    of the repository): the tasks queued by a handler run after its response
    has been sent. *)
Definition run_task (t : task) : M St unit :=
  match t with
  | downloader_start_download year =>
      call (Call_start_download year)
        (ImageDownloader.start_download (downloader W) year)
  end.

Fixpoint run_background (background_tasks : BackgroundTasks) : M St unit :=
  match background_tasks with
  | [] => ret tt
  | t :: rest => run_task t ;; run_background rest
  end.

Definition post_start (year : option Z) : M St unit :=
  r <- start_download [] year ;;
  emit (Response (fst r)) ;;
  run_background (snd r).

End Router.

Arguments start_download {St} background_tasks year _.
Arguments get_status {St} W _.
Arguments clear_images {St} W _.
Arguments probe {St} W img_dir file_hash exts _.
Arguments get_local_image {St} W image_type file_hash _.
Arguments post_start {St} W year _.

(** ** The specification's side *)

(** The layout rule of the store, in the specification's words:
    [<images base>/<category>/<hash[0:2]>/<hash>.<ext>] (an extension carries
    its dot). *)
Definition layout_dir (base category hash : pystr) : pystr :=
  base ++ sep ++ category ++ sep ++ slice_to 2 hash.

Definition layout (base category hash ext : pystr) : pystr :=
  layout_dir base category hash ++ sep ++ hash ++ ext.

(** The content type of an extension, in the specification's words:
    [.jpg] and [.jpeg] give [image/jpeg], any other gives [image/<ext>]. *)
Definition content_type (ext : pystr) : pystr :=
  if str_eqb ext (py ".jpg") || str_eqb ext (py ".jpeg") then py "image/jpeg"
  else py "image/" ++ slice_from 1 ext.

(** A value the route [/local/{image_type}/{file_hash}] can bind to a path
    parameter: one non-empty path segment. *)
Definition path_segment (s : pystr) : Prop := s <> [] /\ ~ In 47%N s.

(** A directory name as [get_output_path] returns it: non-empty, without a
    trailing separator. *)
Definition directory_name (s : pystr) : Prop := s <> [] /\ endswith s sep = false.

(** Claim C1 at one request: whenever the images base resolves, every path
    handed to [os.path.exists] is the layout's directory or one of the
    layout's files, and so is a served file. *)
Definition follows_layout {St} (W : World St) (image_type file_hash : pystr)
  (st : St) : Prop :=
  forall base st1,
    get_output_path W (py "images") st = (inr base, st1) ->
    let out := get_local_image W image_type file_hash (st, []) in
    (forall p, In p (probed (snd (snd out))) ->
       p = layout_dir base image_type file_hash
       \/ exists ext, In ext EXTENSIONS /\ p = layout base image_type file_hash ext)
    /\ (forall response, fst out = inr response ->
          exists ext, In ext EXTENSIONS
                      /\ path response = layout base image_type file_hash ext).

(** A [raise HTTPException(status_code=404, ...)]. *)
Definition NotFound {A} (r : exn + A) : Prop :=
  exists detail, r = inl (HTTPException 404 detail).

(** The directories [/clear] names in its response (lines 51-54). *)
Definition CLEARED_PATHS : list pystr :=
  [ py "output/images/covers"; py "output/images/avatars";
    py "output/images/orphaned_covers"; py "output/images/orphaned_avatars" ].

(** The directories of [CLEARED_PATHS] that a call of [clear_all_images] made
    disappear, and whether it removed some and left some. *)
Definition cleared_by {St} (W : World St) (st : St) : list pystr :=
  let st' := snd (ImageDownloader.clear_all_images (downloader W) st) in
  filter (fun d => os_path_exists W d st && negb (os_path_exists W d st'))
    CLEARED_PATHS.

Definition left_by {St} (W : World St) (st : St) : list pystr :=
  let st' := snd (ImageDownloader.clear_all_images (downloader W) st) in
  filter (fun d => os_path_exists W d st') CLEARED_PATHS.

Definition partial_failure {St} (W : World St) (st : St) : Prop :=
  cleared_by W st <> [] /\ left_by W st <> [].

(** Claim C7 for a world: what was cleared can be read off the response of
    [/clear] after a partial failure. *)
Definition reports_partial_success {St} (W : World St) : Prop :=
  exists decode : pyval -> list pystr,
    forall st response s',
      partial_failure W st ->
      clear_images W (st, []) = (inr response, s') ->
      decode response = cleared_by W st.

(** ** A concrete world: a disk *)

(** The paths that exist, the directories whose removal fails, and the
    [total] of the ledger. *)
Record Disk : Type := {
  existing : list pystr;
  locked : list pystr;
  total : Z
}.

(** [p] is [d] or lies below it. *)
Definition under (d p : pystr) : bool := str_eqb p d || startswith p (d ++ sep).

(** Modelled from the spec: [HashStore.delete_all] of
    scripts/image_downloader.py, which is not among the sources: "removes
    the category's entire directory tree"; a locked directory makes the step
    fail. *)
Definition delete_all (d : pystr) (disk : Disk) : bool * Disk :=
  if py_in d (locked disk) then (false, disk)
  else (true, {| existing := filter (fun p => negb (under d p)) (existing disk);
                 locked := locked disk; total := total disk |}).

Fixpoint delete_each (dirs : list pystr) (disk : Disk) : bool * Disk :=
  match dirs with
  | [] => (true, disk)
  | d :: dirs' =>
      let (ok, disk1) := delete_all d disk in
      let (ok', disk2) := delete_each dirs' disk1 in
      (ok && ok', disk2)
  end.

(** Modelled from the spec: [ImageDownloader.clear_all_images] of
    scripts/image_downloader.py, which is not among the sources: "deletes all
    StoredImage files for every known category and resets StatusLedger; fails
    (returns false) if any deletion step errors, but continues attempting
    remaining steps rather than aborting at the first error". *)
Definition spec_clear_all_images : action Disk bool :=
  fun disk =>
    let (ok, disk') := delete_each CLEARED_PATHS disk in
    (inr ok, {| existing := existing disk'; locked := locked disk'; total := 0 |}).

Definition disk_downloader : ImageDownloader.t Disk :=
  {| ImageDownloader.start_download := fun _ disk => (inr tt, disk);
     ImageDownloader.get_download_stats :=
       fun disk => (inr (PDict [(py "total", PInt (total disk))]), disk);
     ImageDownloader.clear_all_images := spec_clear_all_images |}.

Definition disk_world : World Disk :=
  {| downloader := disk_downloader;
     get_output_path := fun name disk => (inr (os_path_join (py "output") name), disk);
     os_path_exists := fun p disk => py_in p (existing disk) |}.

(** A world whose output directory cannot be resolved. *)
Definition broken_world : World Disk :=
  {| downloader :=
       {| ImageDownloader.start_download := fun _ disk => (inl (Exception (py "boom")), disk);
          ImageDownloader.get_download_stats := fun disk => (inl (Exception (py "boom")), disk);
          ImageDownloader.clear_all_images := fun disk => (inl (Exception (py "boom")), disk) |};
     get_output_path := fun _ disk => (inl (Exception (py "Permission denied")), disk);
     os_path_exists := fun p disk => py_in p (existing disk) |}.

(** A store holding one cover under two extensions, and one avatar. *)
Definition store : list pystr :=
  [ py "output/images/covers"; py "output/images/covers/ab";
    py "output/images/covers/ab/abcdef.png"; py "output/images/covers/ab/abcdef.gif";
    py "output/images/avatars"; py "output/images/avatars/0f";
    py "output/images/avatars/0f/0f12.jpeg" ].

Definition disk0 : Disk := {| existing := store; locked := []; total := 3 |}.

(** The same store on a disk that also has files outside it. *)
Definition disk_outside : Disk :=
  {| existing := py "//" :: py "//srv/pic.png" :: store; locked := []; total := 3 |}.

(** The response that serves the avatar of [store]. *)
Definition served_avatar : FileResponse :=
  {| path := py "output/images/avatars/0f/0f12.jpeg"; media_type := py "image/jpeg" |}.

(** Two disks on which one directory cannot be removed. *)
Definition disk_locked_covers : Disk :=
  {| existing := store; locked := [py "output/images/covers"]; total := 3 |}.

Definition disk_locked_avatars : Disk :=
  {| existing := store; locked := [py "output/images/avatars"]; total := 3 |}.

(** What the loop of [get_local_image] leaves in the trace, and the
    response it builds for an extension. *)
Fixpoint probe_events {St} (W : World St) (st : St) (img_dir file_hash : pystr)
  (exts : list pystr) : list event :=
  match exts with
  | [] => []
  | ext :: exts' =>
      let p := img_path img_dir file_hash ext in
      PathExists p ::
        (if os_path_exists W p st then [Print (py "找到图片文件: " ++ p)]
         else probe_events W st img_dir file_hash exts')
  end.

(** The file the loop serves: the first extension whose file exists. *)
Definition first_match {St} (W : World St) (st : St) (img_dir file_hash : pystr)
  (exts : list pystr) : option pystr :=
  find (fun ext => os_path_exists W (img_path img_dir file_hash ext) st) exts.

Definition response_for (img_dir file_hash ext : pystr) : FileResponse :=
  {| path := img_path img_dir file_hash ext; media_type := media_type_of ext |}.

(** The three lines every call of [get_local_image] prints first. *)
Definition banner (image_type file_hash : pystr) : list event :=
  [ Print ([10%N] ++ py "=== 获取本地图片 ===");
    Print (py "图片类型: " ++ image_type);
    Print (py "文件哈希: " ++ file_hash) ].

(** Claim C4's second half at one request: whatever resolving the base
    raises, other than an HTTPException, ends in HTTPException 500. *)
Definition unexpected_gives_500 {St} (W : World St) (image_type file_hash : pystr)
  (st : St) : Prop :=
  forall e st1,
    get_output_path W (py "images") st = (inl e, st1) ->
    isinstance_HTTPException e = false ->
    exists detail,
      fst (get_local_image W image_type file_hash (st, []))
      = inl (HTTPException 500 detail).

(** Claim C10 at one request: [clear_images] returns a dictionary whose
    status is success or error. *)
Definition always_answers {St} (W : World St) (st : St) : Prop :=
  exists d s',
    clear_images W (st, []) = (inr (PDict d), s')
    /\ (dict_get (py "status") d = Some (PStr (py "success"))
        \/ dict_get (py "status") d = Some (PStr (py "error"))).

(** A world in which the collaborators are interrupted: each call raises a
    [KeyboardInterrupt] (whose [str] is empty). *)
Definition interrupted_world : World Disk :=
  {| downloader :=
       {| ImageDownloader.start_download := fun _ disk => (inl (BaseException (py "")), disk);
          ImageDownloader.get_download_stats := fun disk => (inl (BaseException (py "")), disk);
          ImageDownloader.clear_all_images := fun disk => (inl (BaseException (py "")), disk) |};
     get_output_path := fun _ disk => (inl (BaseException (py "")), disk);
     os_path_exists := fun p disk => py_in p (existing disk) |}.




(** ** Reading results and traces *)

(** The events that are calls of the downloader, and the calls of
    [get_output_path]. *)
Definition is_downloader_call (ev : event) : bool :=
  match ev with
  | Call_clear_all_images | Call_get_download_stats | Call_start_download _ => true
  | _ => false
  end.

Definition is_get_output_path (ev : event) : bool :=
  match ev with Call_get_output_path _ => true | _ => false end.

(** The media types line 113 can produce for the extensions of line 107. *)
Definition MEDIA_TYPES : list pystr :=
  [py "image/jpeg"; py "image/png"; py "image/webp"; py "image/gif"].

(** The three ways a call of [clear_all_images] can end, as [clear_images]
    tells them apart: it returned true, it returned false, it raised (known
    by its [str(e)]). *)
Inductive outcome : Type :=
| Cleared
| Failed
| Raised (text : pystr).

Definition outcome_of (r : exn + bool) : outcome :=
  match r with
  | inr true => Cleared
  | inr false => Failed
  | inl e => Raised (str_exn e)
  end.

(** The messages of lines 62 and 67. *)
Definition CLEAR_FAILED : pystr := py "清空图片失败，请查看日志了解详细信息".
Definition CLEAR_RAISED : pystr := py "清空图片时发生错误: ".

(** What a client reads off a response of [/clear]. *)
Definition read_outcome (response : pyval) : option outcome :=
  match response with
  | PDict d =>
      match dict_get (py "status") d, dict_get (py "message") d with
      | Some (PStr status), Some (PStr message) =>
          if str_eqb status (py "success") then Some Cleared
          else if str_eqb message CLEAR_FAILED then Some Failed
          else if startswith message CLEAR_RAISED then
            Some (Raised (slice_from (List.length CLEAR_RAISED) message))
          else None
      | _, _ => None
      end
  | _ => None
  end.

(** * Properties *)

(** Membership in a literal tuple, by evaluation. *)
Ltac in_tuple := vm_compute; tauto.

Arguments py : simpl never.
Arguments os_path_join : simpl never.

(** ** Strings and paths *)

Example py_ascii : py "covers" = [99; 111; 118; 101; 114; 115]%N.
Proof. reflexivity. Qed.

Example py_cjk : py "年" = [24180]%N.
Proof. reflexivity. Qed.

Example str_of_int_examples :
  str_of_int 2023 = py "2023" /\ str_of_int 0 = py "0" /\ str_of_int (-7) = py "-7".
Proof. repeat split. Qed.

Example join_examples :
  os_path_join (py "output/images") (py "covers") = py "output/images/covers"
  /\ os_path_join (py "output/images/") (py "covers") = py "output/images/covers"
  /\ os_path_join (py "output/images") (py "/ab") = py "/ab"
  /\ os_path_join (py "output/images") (py "") = py "output/images/"
  /\ os_path_join (py "") (py "covers") = py "covers".
Proof. repeat split. Qed.

Example media_type_of_examples :
  map media_type_of EXTENSIONS
  = [py "image/jpeg"; py "image/jpeg"; py "image/png"; py "image/webp"; py "image/gif"].
Proof. reflexivity. Qed.

Example sub_dir_examples :
  sub_dir (py "abcdef") = py "ab" /\ sub_dir (py "a") = py "a" /\ sub_dir (py "") = py "".
Proof. repeat split. Qed.

Lemma str_eqb_eq (a b : pystr) : str_eqb a b = true <-> a = b.
Proof.
  revert b; induction a as [|x a IH]; intros [|y b]; simpl; split; try easy.
  - intros H. apply andb_true_iff in H as [H1 H2].
    apply N.eqb_eq in H1. apply IH in H2. congruence.
  - intros H. injection H as -> ->.
    apply andb_true_iff. split; [apply N.eqb_refl | now apply IH].
Qed.

Lemma str_eqb_refl (a : pystr) : str_eqb a a = true.
Proof. now apply str_eqb_eq. Qed.

Lemma py_in_In (x : pystr) (t : list pystr) : py_in x t = true <-> In x t.
Proof.
  unfold py_in. rewrite existsb_exists. split.
  - intros (y & Hy & E). apply str_eqb_eq in E. now subst.
  - intros H. exists x. split; [assumption | apply str_eqb_refl].
Qed.

Lemma py_in_false (x : pystr) (t : list pystr) : py_in x t = false <-> ~ In x t.
Proof.
  rewrite <- py_in_In. destruct (py_in x t); split; intros H; easy.
Qed.

Lemma startswith_sep (s : pystr) :
  startswith s sep = match s with c :: _ => (c =? 47)%N | [] => false end.
Proof.
  change sep with [47%N]. destruct s as [|c s]; simpl; [reflexivity|].
  destruct s; apply andb_true_r.
Qed.

Lemma sep_app_nonempty (s : pystr) : sep ++ s <> [].
Proof. change sep with [47%N]. discriminate. Qed.

Lemma endswith_snoc (a : pystr) (c : N) : endswith (a ++ [c]) sep = (c =? 47)%N.
Proof.
  unfold endswith. rewrite rev_app_distr. change (rev sep) with [47%N]. simpl.
  destruct (rev a); apply andb_true_r.
Qed.

Lemma endswith_app (a b : pystr) : b <> [] -> endswith (a ++ b) sep = endswith b sep.
Proof.
  intros H. destruct (exists_last H) as (b' & c & ->).
  rewrite app_assoc, !endswith_snoc. reflexivity.
Qed.

Lemma no_sep_startswith (s : pystr) : ~ In 47%N s -> startswith s sep = false.
Proof.
  intros H. rewrite startswith_sep. destruct s as [|c s]; [reflexivity|].
  apply N.eqb_neq. intros ->. apply H. now left.
Qed.

Lemma no_sep_endswith (s : pystr) : ~ In 47%N s -> endswith s sep = false.
Proof.
  intros H. destruct s as [|c0 s0] eqn:E; [reflexivity|]. rewrite <- E in *.
  assert (Hne : s <> []) by (rewrite E; discriminate).
  destruct (exists_last Hne) as (s' & c & ->). rewrite endswith_snoc.
  apply N.eqb_neq. intros ->. apply H. apply in_or_app. right. now left.
Qed.

Lemma In_slice_to (n : nat) (x : N) (s : pystr) : In x (slice_to n s) -> In x s.
Proof.
  unfold slice_to. revert s; induction n as [|n IH]; intros [|c s]; simpl; try easy.
  intros [->|H]; [now left | right; now apply IH].
Qed.

(** On a directory name and a relative component, [os.path.join] is
    concatenation with one separator. *)
Lemma join_plain (a b : pystr) :
  directory_name a -> startswith b sep = false -> os_path_join a b = a ++ sep ++ b.
Proof.
  unfold os_path_join. intros [Hne He] Hb. rewrite Hb.
  destruct a as [|c a]; [contradiction|]. rewrite He. reflexivity.
Qed.

Lemma type_path_layout (base image_type : pystr) :
  directory_name base -> In image_type IMAGE_TYPES ->
  type_path base image_type = base ++ sep ++ image_type
  /\ directory_name (base ++ sep ++ image_type).
Proof.
  intros Hb Hin.
  assert (Hc : startswith image_type sep = false /\ endswith image_type sep = false
               /\ image_type <> []).
  { destruct Hin as [<-|[<-|[]]]; repeat split; try reflexivity; now vm_compute. }
  destruct Hc as (Hs & He & Hne). split.
  - now apply join_plain.
  - split.
    + destruct Hb as [Hb _]. destruct base; [contradiction | discriminate].
    + rewrite endswith_app, endswith_app; try assumption.
      apply sep_app_nonempty.
Qed.

(** The paths the handler builds are the layout's, for a hash that is one
    path segment. *)
Lemma img_dir_layout (base image_type file_hash : pystr) :
  directory_name base -> In image_type IMAGE_TYPES -> path_segment file_hash ->
  img_dir base image_type file_hash = layout_dir base image_type file_hash
  /\ directory_name (img_dir base image_type file_hash).
Proof.
  intros Hb Hin [Hne Hns].
  destruct (type_path_layout Hb Hin) as [Ht Hd].
  assert (Hsub : ~ In 47%N (sub_dir file_hash)).
  { intros H. apply Hns. eapply In_slice_to, H. }
  assert (E : img_dir base image_type file_hash = layout_dir base image_type file_hash).
  { unfold img_dir, layout_dir. rewrite Ht.
    rewrite join_plain; [| assumption | now apply no_sep_startswith].
    unfold sub_dir. now rewrite <- !app_assoc. }
  split; [exact E|]. rewrite E. unfold layout_dir. split.
  - destruct Hb as [Hb _]. destruct base; [contradiction | discriminate].
  - rewrite !app_assoc. rewrite endswith_app.
    + now apply no_sep_endswith.
    + destruct file_hash; [contradiction | discriminate].
Qed.

Lemma img_path_layout (base image_type file_hash ext : pystr) :
  directory_name base -> In image_type IMAGE_TYPES -> path_segment file_hash ->
  img_path (img_dir base image_type file_hash) file_hash ext
  = layout base image_type file_hash ext.
Proof.
  intros Hb Hin Hseg. destruct (img_dir_layout Hb Hin Hseg) as [E Hd].
  unfold img_path, layout. rewrite join_plain; [now rewrite E | assumption |].
  destruct Hseg as [Hne Hns]. rewrite startswith_sep.
  destruct file_hash as [|c h]; [contradiction|]. simpl.
  apply N.eqb_neq. intros ->. apply Hns. now left.
Qed.

(** ** Traces *)

Lemma probed_app (tr tr' : list event) : probed (tr ++ tr') = probed tr ++ probed tr'.
Proof.
  induction tr as [|ev tr IH]; simpl; [reflexivity|].
  destruct ev; simpl; now rewrite IH.
Qed.

Lemma probed_banner (image_type file_hash : pystr) :
  probed (banner image_type file_hash) = [].
Proof. reflexivity. Qed.

Unset Implicit Arguments.

(** ** Running the monad *)

Section Steps.

Variable St : Type.
Variable W : World St.
Variables A B : Type.

Lemma bind_ret (a : A) (k : A -> M St B) (s : St * list event) :
  bind (ret a) k s = k a s.
Proof. reflexivity. Qed.

Lemma bind_raise (e : exn) (k : A -> M St B) (s : St * list event) :
  bind (raise e) k s = (inl e, s).
Proof. reflexivity. Qed.

Lemma bind_emit (ev : event) (k : unit -> M St B) (st : St) (tr : list event) :
  bind (emit ev) k (st, tr) = k tt (st, tr ++ [ev]).
Proof. reflexivity. Qed.

Lemma bind_exists (p : pystr) (k : bool -> M St B) (st : St) (tr : list event) :
  bind (exists_ W p) k (st, tr) = k (os_path_exists W p st) (st, tr ++ [PathExists p]).
Proof. reflexivity. Qed.

Lemma bind_call_ok (ev : event) (f : action St A) (k : A -> M St B) (a : A)
  (st st1 : St) (tr : list event) :
  f st = (inr a, st1) -> bind (call ev f) k (st, tr) = k a (st1, tr ++ [ev]).
Proof. intros H. unfold bind, call. cbn [fst snd]. now rewrite H. Qed.

Lemma bind_call_err (ev : event) (f : action St A) (k : A -> M St B) (e : exn)
  (st st1 : St) (tr : list event) :
  f st = (inl e, st1) -> bind (call ev f) k (st, tr) = (inl e, (st1, tr ++ [ev])).
Proof. intros H. unfold bind, call. cbn [fst snd]. now rewrite H. Qed.

Lemma try_except_ok (body : M St A) (h : exn -> M St A) (a : A)
  (s s' : St * list event) :
  body s = (inr a, s') -> try_except body h s = (inr a, s').
Proof. intros H. unfold try_except. now rewrite H. Qed.

Lemma try_except_err (body : M St A) (h : exn -> M St A) (e : exn)
  (s s' : St * list event) :
  body s = (inl e, s') -> isinstance_Exception e = true ->
  try_except body h s = h e s'.
Proof. intros H He. unfold try_except. now rewrite H, He. Qed.

End Steps.

Section Runs.

Variable St : Type.
Variable W : World St.

Lemma probe_run (img_dir file_hash : pystr) (exts : list pystr) (st : St)
  (tr : list event) :
  probe W img_dir file_hash exts (st, tr)
  = (inr (option_map (response_for img_dir file_hash)
            (first_match W st img_dir file_hash exts)),
     (st, tr ++ probe_events W st img_dir file_hash exts)).
Proof.
  unfold first_match in *.
  revert tr. induction exts as [|ext exts IH]; intros tr.
  - cbn [probe probe_events find option_map]. unfold ret. now rewrite app_nil_r.
  - cbn [probe probe_events find option_map]. unfold bind at 1, exists_ at 1.
    cbn [fst snd].
    destruct (os_path_exists W (img_path img_dir file_hash ext) st).
    + unfold bind, emit, ret. cbn [fst snd option_map].
      now rewrite <- app_assoc.
    + rewrite IH. now rewrite <- app_assoc.
Qed.

Lemma first_match_split (st : St) (img_dir file_hash : pystr)
  (pre post : list pystr) (ext : pystr) :
  (forall e, In e pre -> os_path_exists W (img_path img_dir file_hash e) st = false) ->
  os_path_exists W (img_path img_dir file_hash ext) st = true ->
  first_match W st img_dir file_hash (pre ++ ext :: post) = Some ext
  /\ probed (probe_events W st img_dir file_hash (pre ++ ext :: post))
     = map (img_path img_dir file_hash) (pre ++ [ext]).
Proof.
  intros Hpre Hext. unfold first_match. induction pre as [|e pre IH]; simpl.
  - rewrite Hext. split; reflexivity.
  - rewrite (Hpre e (or_introl eq_refl)).
    destruct IH as [IH1 IH2]; [intros; apply Hpre; now right|].
    split; [exact IH1 | now rewrite IH2].
Qed.

Lemma first_match_none (st : St) (img_dir file_hash : pystr) (exts : list pystr) :
  first_match W st img_dir file_hash exts = None
  <-> forall ext, In ext exts ->
        os_path_exists W (img_path img_dir file_hash ext) st = false.
Proof.
  unfold first_match. split.
  - intros H ext Hin. exact (find_none _ _ H ext Hin).
  - intros H. destruct (find _ exts) as [ext|] eqn:E; [|reflexivity].
    apply find_some in E as [Hin Hex]. rewrite (H ext Hin) in Hex. discriminate.
Qed.


(** An invalid category: nothing but the banner happens. *)
Lemma get_local_image_invalid (image_type file_hash : pystr) (st : St)
  (tr : list event) :
  py_in image_type IMAGE_TYPES = false ->
  get_local_image W image_type file_hash (st, tr)
  = (inl (HTTPException 400 (py "无效的图片类型: " ++ image_type)),
     (st, tr ++ banner image_type file_hash)).
Proof.
  intros H. unfold get_local_image. rewrite !bind_emit, H.
  unfold raise, banner. cbn [negb]. now rewrite <- !app_assoc.
Qed.

(** The body of the [try] of [get_local_image], once the base is known. *)
Lemma lookup_run (image_type file_hash base : pystr) (st : St) (tr : list event) :
  let dir := img_dir base image_type file_hash in
  bind (exists_ W dir)
    (fun dir_found : bool =>
       if negb dir_found then
         raise (HTTPException 404 (py "图片不存在: " ++ file_hash))
       else
         bind (probe W dir file_hash EXTENSIONS)
           (fun r => match r with
                     | Some response => ret response
                     | None => raise (HTTPException 404 (py "图片不存在: " ++ file_hash))
                     end)) (st, tr)
  = if os_path_exists W dir st then
      match first_match W st dir file_hash EXTENSIONS with
      | Some ext =>
          (inr (response_for dir file_hash ext),
           (st, (tr ++ [PathExists dir]) ++ probe_events W st dir file_hash EXTENSIONS))
      | None =>
          (inl (HTTPException 404 (py "图片不存在: " ++ file_hash)),
           (st, (tr ++ [PathExists dir]) ++ probe_events W st dir file_hash EXTENSIONS))
      end
    else (inl (HTTPException 404 (py "图片不存在: " ++ file_hash)),
          (st, tr ++ [PathExists dir])).
Proof.
  intros dir. rewrite bind_exists.
  destruct (os_path_exists W dir st); cbn [negb]; [|reflexivity].
  unfold bind. rewrite probe_run.
  destruct (first_match W st dir file_hash EXTENSIONS); reflexivity.
Qed.

(** A valid category whose images base resolves. *)
Lemma get_local_image_run (image_type file_hash base : pystr) (st st1 : St)
  (tr : list event) :
  In image_type IMAGE_TYPES ->
  get_output_path W (py "images") st = (inr base, st1) ->
  let dir := img_dir base image_type file_hash in
  let tr1 := tr ++ banner image_type file_hash
                ++ [Call_get_output_path (py "images"); PathExists dir] in
  get_local_image W image_type file_hash (st, tr)
  = if os_path_exists W dir st1 then
      match first_match W st1 dir file_hash EXTENSIONS with
      | Some ext =>
          (inr (response_for dir file_hash ext),
           (st1, tr1 ++ probe_events W st1 dir file_hash EXTENSIONS))
      | None =>
          (inl (HTTPException 404 (py "图片不存在: " ++ file_hash)),
           (st1, tr1 ++ probe_events W st1 dir file_hash EXTENSIONS))
      end
    else (inl (HTTPException 404 (py "图片不存在: " ++ file_hash)), (st1, tr1)).
Proof.
  intros Hin Hget dir tr1. apply py_in_In in Hin.
  unfold get_local_image. rewrite !bind_emit, Hin. cbn [negb].
  set (tr0 := ((tr ++ _) ++ _) ++ _).
  assert (Etr : (tr0 ++ [Call_get_output_path (py "images")]) ++ [PathExists dir] = tr1)
    by (unfold tr0, tr1, banner; now rewrite <- !app_assoc).
  unfold try_except. erewrite bind_call_ok by exact Hget.
  rewrite lookup_run. fold dir. rewrite Etr.
  destruct (os_path_exists W dir st1); [|reflexivity].
  destruct (first_match W st1 dir file_hash EXTENSIONS); reflexivity.
Qed.

(** A valid category whose images base does not resolve. *)
Lemma get_local_image_unresolved (image_type file_hash : pystr) (e : exn)
  (st st1 : St) (tr : list event) :
  In image_type IMAGE_TYPES ->
  get_output_path W (py "images") st = (inl e, st1) ->
  fst (get_local_image W image_type file_hash (st, tr))
  = inl (match e with
         | Exception _ => HTTPException 500 (py "获取图片失败: " ++ str_exn e)
         | _ => e
         end).
Proof.
  intros Hin Hget. apply py_in_In in Hin.
  unfold get_local_image. rewrite !bind_emit, Hin. cbn [negb].
  unfold try_except. erewrite bind_call_err by exact Hget.
  destruct e; reflexivity.
Qed.

End Runs.

Lemma media_type_of_content_type (ext : pystr) : media_type_of ext = content_type ext.
Proof.
  unfold media_type_of, content_type.
  destruct (str_eqb ext (py ".jpg")) eqn:E1; [reflexivity|].
  destruct (str_eqb ext (py ".jpeg")) eqn:E2; [|reflexivity].
  apply str_eqb_eq in E2. now subst ext.
Qed.

Lemma short_slice (s : pystr) : (List.length s < 2)%nat -> slice_to 2 s = s.
Proof. intros H. unfold slice_to. apply firstn_all2. lia. Qed.

(** ** GET /local/{image_type}/{file_hash} *)










(** C2: for a valid category and any hash, once the directory exists the
    extensions are probed in the fixed order .jpg, .jpeg, .png, .webp, .gif,
    probing stops at the first one whose file exists, and that file is the
    one served, whatever exists for the later extensions. *)
Theorem get_local_image_first_match (St : Type) (W : World St)
  (image_type file_hash base : pystr) (st st1 : St) (tr : list event)
  (pre post : list pystr) (ext : pystr) :
  In image_type IMAGE_TYPES ->
  get_output_path W (py "images") st = (inr base, st1) ->
  os_path_exists W (img_dir base image_type file_hash) st1 = true ->
  EXTENSIONS = pre ++ ext :: post ->
  (forall e, In e pre ->
     os_path_exists W (img_path (img_dir base image_type file_hash) file_hash e) st1
     = false) ->
  os_path_exists W (img_path (img_dir base image_type file_hash) file_hash ext) st1
  = true ->
  EXTENSIONS = [py ".jpg"; py ".jpeg"; py ".png"; py ".webp"; py ".gif"]
  /\ fst (get_local_image W image_type file_hash (st, tr))
     = inr {| path := img_path (img_dir base image_type file_hash) file_hash ext;
              media_type := media_type_of ext |}
  /\ probed (snd (snd (get_local_image W image_type file_hash (st, tr))))
     = probed tr ++ img_dir base image_type file_hash
         :: map (img_path (img_dir base image_type file_hash) file_hash) (pre ++ [ext]).
Proof.
  intros Hin Hget Hdir Hsplit Hpre Hext. split; [reflexivity|].
  rewrite (get_local_image_run St W image_type file_hash base st st1 tr Hin Hget). cbv zeta. rewrite Hdir.
  destruct (first_match_split St W st1 _ file_hash pre post ext Hpre Hext) as [Hfm Hev].
  rewrite Hsplit, Hfm. cbn [fst snd]. split; [reflexivity|].
  rewrite !probed_app, probed_banner, Hev. cbn [probed app].
  now rewrite <- app_assoc.
Qed.

(** C3: for every image_type outside {covers, avatars} and every file_hash,
    [get_local_image] raises HTTPException 400 (InvalidCategory); the state
    is untouched and the only events are the three printed lines: no path is
    probed and no collaborator is called. *)
Theorem get_local_image_invalid_category (St : Type) (W : World St)
  (image_type file_hash : pystr) (st : St) (tr : list event) :
  ~ In image_type IMAGE_TYPES ->
  get_local_image W image_type file_hash (st, tr)
  = (inl (HTTPException 400 (py "无效的图片类型: " ++ image_type)),
     (st, tr ++ banner image_type file_hash))
  /\ forallb is_print (banner image_type file_hash) = true
  /\ probed (banner image_type file_hash) = [].
Proof.
  intros H. apply py_in_false in H. split; [|split; reflexivity].
  now apply get_local_image_invalid.
Qed.

Lemma not_found_iff_run (St : Type) (W : World St)
  (image_type file_hash base : pystr) (st st1 : St) (tr : list event) :
  In image_type IMAGE_TYPES ->
  get_output_path W (py "images") st = (inr base, st1) ->
  NotFound (fst (get_local_image W image_type file_hash (st, tr)))
  <-> (os_path_exists W (img_dir base image_type file_hash) st1 = false
       \/ forall ext, In ext EXTENSIONS ->
            os_path_exists W
              (img_path (img_dir base image_type file_hash) file_hash ext) st1
            = false).
Proof.
  intros Hin Hget.
  rewrite (get_local_image_run St W image_type file_hash base st st1 tr Hin Hget).
  cbv zeta. rewrite <- first_match_none.
  destruct (os_path_exists W (img_dir base image_type file_hash) st1).
  - destruct (first_match W st1 _ file_hash EXTENSIONS) as [ext|]; cbn [fst]; split.
    + intros [d Hd]. discriminate.
    + intros [H|H]; discriminate.
    + intros _. now right.
    + intros _. now eexists.
  - cbn [fst]. split; [intros _; now left | intros _; now eexists].
Qed.

(** C4 (amended): for a valid category and any hash, when the images base
    resolves the result is NotFound (HTTPException 404) if and only if the
    directory join(join(base, category), hash[:2]) is absent or no file
    join(directory, hash + ext) exists for any extension of the list.  When
    resolving the base raises: an instance of Exception that is not an
    HTTPException becomes HTTPException 500, never a response; an
    HTTPException is re-raised as it is (so a 404 of its own is a NotFound);
    an exception outside Exception leaves the handler as it is. *)
Theorem get_local_image_not_found_iff (St : Type) (W : World St)
  (image_type file_hash : pystr) (st : St) (tr : list event) :
  In image_type IMAGE_TYPES ->
  (forall base st1,
     get_output_path W (py "images") st = (inr base, st1) ->
     NotFound (fst (get_local_image W image_type file_hash (st, tr)))
     <-> (os_path_exists W
            (os_path_join (os_path_join base image_type) (slice_to 2 file_hash)) st1
          = false
          \/ forall ext, In ext EXTENSIONS ->
               os_path_exists W
                 (os_path_join
                    (os_path_join (os_path_join base image_type) (slice_to 2 file_hash))
                    (file_hash ++ ext)) st1
               = false))
  /\ (forall message st1,
        get_output_path W (py "images") st = (inl (Exception message), st1) ->
        fst (get_local_image W image_type file_hash (st, tr))
        = inl (HTTPException 500 (py "获取图片失败: " ++ message)))
  /\ (forall status_code detail st1,
        get_output_path W (py "images") st
        = (inl (HTTPException status_code detail), st1) ->
        fst (get_local_image W image_type file_hash (st, tr))
        = inl (HTTPException status_code detail))
  /\ (forall message st1,
        get_output_path W (py "images") st = (inl (BaseException message), st1) ->
        fst (get_local_image W image_type file_hash (st, tr))
        = inl (BaseException message)).
Proof.
  intros Hin. split; [|split; [|split]].
  - intros base st1 Hget.
    exact (not_found_iff_run St W image_type file_hash base st st1 tr Hin Hget).
  - intros message st1 Hget.
    exact (get_local_image_unresolved St W image_type file_hash _ st st1 tr Hin Hget).
  - intros status_code detail st1 Hget.
    exact (get_local_image_unresolved St W image_type file_hash _ st st1 tr Hin Hget).
  - intros message st1 Hget.
    exact (get_local_image_unresolved St W image_type file_hash _ st st1 tr Hin Hget).
Qed.

(** C5: whenever [get_local_image] returns a response, the served path is the
    file of some extension of the probe list, that file exists, and the
    media type is the content type of that extension: image/jpeg for .jpg
    and .jpeg, image/<ext> for the others (image/png, image/webp,
    image/gif). *)
Theorem get_local_image_content_type (St : Type) (W : World St)
  (image_type file_hash : pystr) (st : St) (tr : list event)
  (response : FileResponse) :
  fst (get_local_image W image_type file_hash (st, tr)) = inr response ->
  map content_type EXTENSIONS
  = [py "image/jpeg"; py "image/jpeg"; py "image/png"; py "image/webp"; py "image/gif"]
  /\ exists base st1 ext,
       get_output_path W (py "images") st = (inr base, st1)
       /\ In ext EXTENSIONS
       /\ path response = img_path (img_dir base image_type file_hash) file_hash ext
       /\ os_path_exists W (path response) st1 = true
       /\ media_type response = content_type ext.
Proof.
  intros Hr. split; [reflexivity|].
  destruct (py_in image_type IMAGE_TYPES) eqn:Hin.
  2:{ rewrite get_local_image_invalid in Hr by assumption. discriminate. }
  apply py_in_In in Hin.
  destruct (get_output_path W (py "images") st) as [[e|base] st1] eqn:Hget.
  { rewrite (get_local_image_unresolved St W image_type file_hash e st st1 tr Hin Hget) in Hr. discriminate. }
  rewrite (get_local_image_run St W image_type file_hash base st st1 tr Hin Hget) in Hr. cbv zeta in Hr.
  destruct (os_path_exists W (img_dir base image_type file_hash) st1); [|discriminate].
  destruct (first_match W st1 _ file_hash EXTENSIONS) as [ext|] eqn:E; [|discriminate].
  cbn [fst] in Hr. injection Hr as <-.
  apply find_some in E as [He Hex].
  exists base, st1, ext. cbn [path media_type response_for].
  repeat split; try assumption; try reflexivity.
  apply media_type_of_content_type.
Qed.

Lemma first_match_some_split (St : Type) (W : World St) (st : St)
  (img_dir file_hash : pystr) (exts : list pystr) (ext : pystr) :
  first_match W st img_dir file_hash exts = Some ext ->
  exists pre post,
    exts = pre ++ ext :: post
    /\ (forall e, In e pre ->
          os_path_exists W (img_path img_dir file_hash e) st = false)
    /\ os_path_exists W (img_path img_dir file_hash ext) st = true.
Proof.
  unfold first_match. induction exts as [|x exts IH]; cbn [find]; [discriminate|].
  destruct (os_path_exists W (img_path img_dir file_hash x) st) eqn:Ex.
  - intros [= <-]. exists [], exts. repeat split; [intros e []| exact Ex].
  - intros H. destruct (IH H) as (pre & post & -> & Hpre & Hext).
    exists (x :: pre), post. repeat split; [|exact Hext].
    intros e [<-|He]; [exact Ex | now apply Hpre].
Qed.

(** C9: for a valid category and a file_hash of fewer than two characters
    (the empty string included), [file_hash[:2]] is the whole hash, so the
    directory looked up is join(join(base, category), hash), and the lookup
    takes its ordinary course without an unexpected error: it ends in
    NotFound exactly when that directory or every candidate file
    join(directory, hash + ext) is absent (as it is in a store that holds no
    file under such a name), and otherwise in the response for the first
    extension of the list whose file exists. *)
Theorem get_local_image_short_hash (St : Type) (W : World St)
  (image_type file_hash base : pystr) (st st1 : St) (tr : list event) :
  In image_type IMAGE_TYPES ->
  (List.length file_hash < 2)%nat ->
  get_output_path W (py "images") st = (inr base, st1) ->
  sub_dir file_hash = file_hash
  /\ (NotFound (fst (get_local_image W image_type file_hash (st, tr)))
      <-> (os_path_exists W (os_path_join (os_path_join base image_type) file_hash) st1
           = false
           \/ forall ext, In ext EXTENSIONS ->
                os_path_exists W
                  (os_path_join (os_path_join (os_path_join base image_type) file_hash)
                     (file_hash ++ ext)) st1
                = false))
  /\ (NotFound (fst (get_local_image W image_type file_hash (st, tr)))
      \/ exists pre ext post,
           EXTENSIONS = pre ++ ext :: post
           /\ (forall e, In e pre ->
                 os_path_exists W
                   (os_path_join (os_path_join (os_path_join base image_type) file_hash)
                      (file_hash ++ e)) st1
                 = false)
           /\ os_path_exists W
                (os_path_join (os_path_join (os_path_join base image_type) file_hash)
                   (file_hash ++ ext)) st1
              = true
           /\ fst (get_local_image W image_type file_hash (st, tr))
              = inr {| path :=
                         os_path_join
                           (os_path_join (os_path_join base image_type) file_hash)
                           (file_hash ++ ext);
                       media_type := media_type_of ext |}).
Proof.
  intros Hin Hlen Hget.
  assert (Hsub : sub_dir file_hash = file_hash) by now apply short_slice.
  assert (Hdir : os_path_join (os_path_join base image_type) file_hash
                 = img_dir base image_type file_hash)
    by (unfold img_dir, type_path; now rewrite Hsub).
  split; [exact Hsub|]. rewrite Hdir. split.
  - exact (not_found_iff_run St W image_type file_hash base st st1 tr Hin Hget).
  - rewrite (get_local_image_run St W image_type file_hash base st st1 tr Hin Hget).
    cbv zeta.
    destruct (os_path_exists W (img_dir base image_type file_hash) st1);
      [|left; now eexists].
    destruct (first_match W st1 _ file_hash EXTENSIONS) as [ext|] eqn:E;
      [|left; now eexists].
    right. apply first_match_some_split in E as (pre & post & Hs & Hpre & Hext).
    exists pre, ext, post. repeat split; assumption.
Qed.

(** ** POST /clear *)

Lemma clear_images_run (St : Type) (W : World St) (st : St) (tr : list event) :
  clear_images W (st, tr)
  = match ImageDownloader.clear_all_images (downloader W) st with
    | (inr true, st') =>
        (inr (PDict
                [ (py "status", PStr (py "success"));
                  (py "message", PStr (py "已清空所有图片和下载状态"));
                  (py "data",
                   PDict [ (py "cleared_paths", PList (map PStr CLEARED_PATHS));
                           (py "status_file", PStr (py "output/download_status.json")) ]) ]),
         (st', tr ++ [Call_clear_all_images]))
    | (inr false, st') =>
        (inr (PDict [ (py "status", PStr (py "error"));
                      (py "message", PStr (py "清空图片失败，请查看日志了解详细信息")) ]),
         (st', tr ++ [Call_clear_all_images]))
    | (inl (BaseException message), st') =>
        (inl (BaseException message), (st', tr ++ [Call_clear_all_images]))
    | (inl e, st') =>
        (inr (PDict [ (py "status", PStr (py "error"));
                      (py "message", PStr (py "清空图片时发生错误: " ++ str_exn e)) ]),
         (st', tr ++ [Call_clear_all_images]))
    end.
Proof.
  unfold clear_images, try_except.
  destruct (ImageDownloader.clear_all_images (downloader W) st) as [[e|[|]] st'] eqn:E.
  - erewrite bind_call_err by exact E. destruct e; reflexivity.
  - erewrite bind_call_ok by exact E. reflexivity.
  - erewrite bind_call_ok by exact E. reflexivity.
Qed.

(** C6: when [clear_all_images()] returns true, the response of [/clear] has
    status success and, under data, the four directory names
    (output/images/covers, output/images/avatars and the two orphan
    directories) and the ledger file's name output/download_status.json;
    when it returns false, the response has status error. *)
Theorem clear_images_reports (St : Type) (W : World St) (st st' : St)
  (tr : list event) (success : bool) :
  ImageDownloader.clear_all_images (downloader W) st = (inr success, st') ->
  exists d,
    clear_images W (st, tr) = (inr (PDict d), (st', tr ++ [Call_clear_all_images]))
    /\ if success then
         dict_get (py "status") d = Some (PStr (py "success"))
         /\ dict_get (py "data") d
            = Some (PDict
                      [ (py "cleared_paths",
                         PList [ PStr (py "output/images/covers");
                                 PStr (py "output/images/avatars");
                                 PStr (py "output/images/orphaned_covers");
                                 PStr (py "output/images/orphaned_avatars") ]);
                        (py "status_file", PStr (py "output/download_status.json")) ])
       else dict_get (py "status") d = Some (PStr (py "error")).
Proof.
  intros H. rewrite clear_images_run, H.
  destruct success; eexists; (split; [reflexivity|]).
  - split; reflexivity.
  - reflexivity.
Qed.

(** C7 (amended): when [clear_all_images()] returns false, whatever it did or
    did not delete, the response of [/clear] is one fixed dictionary: status
    error and a message that points to the logs, with no entry naming a
    directory; it does not claim success. *)
Theorem clear_images_failure_is_uniform (St : Type) (W : World St) (st st' : St)
  (tr : list event) :
  ImageDownloader.clear_all_images (downloader W) st = (inr false, st') ->
  clear_images W (st, tr)
  = (inr (PDict [ (py "status", PStr (py "error"));
                  (py "message", PStr (py "清空图片失败，请查看日志了解详细信息")) ]),
     (st', tr ++ [Call_clear_all_images])).
Proof. intros H. now rewrite clear_images_run, H. Qed.

(** C10 (amended): [clear_images] does not let an instance of Exception
    through: whether [clear_all_images()] returns true, returns false or
    raises an exception that is an instance of Exception, the result is a
    dictionary whose status entry is success or error. *)
Theorem clear_images_catches_exceptions (St : Type) (W : World St) (st : St)
  (tr : list event) :
  (forall e st',
     ImageDownloader.clear_all_images (downloader W) st = (inl e, st') ->
     isinstance_Exception e = true) ->
  exists d s',
    clear_images W (st, tr) = (inr (PDict d), s')
    /\ (dict_get (py "status") d = Some (PStr (py "success"))
        \/ dict_get (py "status") d = Some (PStr (py "error"))).
Proof.
  intros Hexc. rewrite clear_images_run.
  destruct (ImageDownloader.clear_all_images (downloader W) st) as [[e|[|]] st'] eqn:E.
  - specialize (Hexc e st' eq_refl).
    destruct e; [| |discriminate]; eexists; eexists;
      (split; [reflexivity | right; reflexivity]).
  - eexists; eexists; (split; [reflexivity | left; reflexivity]).
  - eexists; eexists; (split; [reflexivity | right; reflexivity]).
Qed.

(** ** POST /start *)

(** C8: for every year (given or omitted) [/start] only queues
    [downloader.start_download(year)] and returns the success
    acknowledgment: the handler leaves the state and the trace as they were;
    served by the framework, the acknowledgment is sent before the
    downloader is called and is the same whether the run then returns or
    raises. *)
Theorem start_download_acknowledges (St : Type) (W : World St) (year : option Z)
  (background_tasks : BackgroundTasks) (st : St) (tr : list event) :
  let ack :=
    PDict [ (py "status", PStr (py "success"));
            (py "message",
             PStr (py "开始下载"
                   ++ match year with
                      | None => py "所有年份"
                      | Some y => str_of_int y ++ py "年"
                      end
                   ++ py "的图片")) ] in
  start_download background_tasks year (st, tr)
  = (inr (ack, background_tasks ++ [downloader_start_download year]), (st, tr))
  /\ exists r st',
       ImageDownloader.start_download (downloader W) year st = (r, st')
       /\ post_start W year (st, tr)
          = (r, (st', tr ++ [Response ack; Call_start_download year])).
Proof.
  cbv zeta. split; [reflexivity|].
  destruct (ImageDownloader.start_download (downloader W) year st) as [r st'] eqn:E.
  exists r, st'. split; [reflexivity|].
  unfold post_start, start_download. rewrite bind_ret. cbn [fst snd add_task app].
  rewrite bind_emit. cbn [run_background run_task].
  destruct r as [e|[]].
  - erewrite bind_call_err by exact E. now rewrite <- app_assoc.
  - erewrite bind_call_ok by exact E. unfold ret. now rewrite <- app_assoc.
Qed.

(** ** The claims at concrete requests *)

(** A direct call with a hash that begins with a separator (the route binds
    no such value) leaves the layout: [os.path.join] drops the store's
    directories. *)
Lemma absolute_hash_leaves_layout :
  fst (get_local_image disk_world (py "covers") (py "//srv/pic") (disk_outside, []))
  = inr {| path := py "//srv/pic.png"; media_type := py "image/png" |}
  /\ ~ follows_layout disk_world (py "covers") (py "//srv/pic") disk_outside.
Proof.
  split; [reflexivity|]. intros H.
  destruct (H (py "output/images") disk_outside eq_refl) as [_ H2].
  destruct (H2 {| path := py "//srv/pic.png"; media_type := py "image/png" |} eq_refl)
    as (ext & _ & E).
  unfold layout, layout_dir in E. vm_compute in E. discriminate E.
Qed.


Lemma get_local_image_first_match_witness :
  fst (get_local_image disk_world (py "covers") (py "abcdef") (disk0, []))
  = inr {| path := py "output/images/covers/ab/abcdef.png";
           media_type := py "image/png" |}
  /\ probed (snd (snd (get_local_image disk_world (py "covers") (py "abcdef") (disk0, []))))
     = [ py "output/images/covers/ab"; py "output/images/covers/ab/abcdef.jpg";
         py "output/images/covers/ab/abcdef.jpeg"; py "output/images/covers/ab/abcdef.png" ].
Proof.
  apply (get_local_image_first_match Disk disk_world (py "covers") (py "abcdef")
           (py "output/images") disk0 disk0 []
           [py ".jpg"; py ".jpeg"] [py ".webp"; py ".gif"] (py ".png")).
  - in_tuple.
  - reflexivity.
  - reflexivity.
  - reflexivity.
  - intros e [<-|[<-|[]]]; reflexivity.
  - reflexivity.
Defined.

Lemma get_local_image_invalid_category_witness :
  get_local_image disk_world (py "badtype") (py "abc123") (disk0, [])
  = (inl (HTTPException 400 (py "无效的图片类型: badtype")),
     (disk0, banner (py "badtype") (py "abc123"))).
Proof.
  apply (get_local_image_invalid_category Disk disk_world (py "badtype") (py "abc123")
           disk0 []).
  vm_compute. intuition discriminate.
Defined.

(** C4 as stated fails where resolving the base is interrupted: the
    exception is outside Exception, so it leaves the handler as it is and no
    HTTPException 500 is raised. *)
Lemma interrupt_escapes_lookup :
  fst (get_local_image interrupted_world (py "covers") (py "abcdef") (disk0, []))
  = inl (BaseException (py ""))
  /\ ~ unexpected_gives_500 interrupted_world (py "covers") (py "abcdef") disk0.
Proof.
  split; [reflexivity|]. intros H.
  destruct (H (BaseException (py "")) disk0 eq_refl eq_refl) as [detail E].
  vm_compute in E. discriminate E.
Qed.

Lemma get_local_image_not_found_iff_witness :
  os_path_exists disk_world (py "output/images/covers/ab") disk0 = true
  /\ os_path_exists disk_world (py "output/images/covers/ab/abcdef.png") disk0 = true
  /\ NotFound (fst (get_local_image disk_world (py "covers") (py "ab0000") (disk0, [])))
  /\ ~ NotFound (fst (get_local_image disk_world (py "covers") (py "abcdef") (disk0, [])))
  /\ fst (get_local_image broken_world (py "avatars") (py "abcdef") (disk0, []))
     = inl (HTTPException 500 (py "获取图片失败: Permission denied")).
Proof.
  split; [reflexivity|]. split; [reflexivity|]. split; [|split].
  - apply (proj1 (get_local_image_not_found_iff Disk disk_world (py "covers")
                    (py "ab0000") disk0 [] ltac:(in_tuple))
             (py "output/images") disk0 eq_refl).
    right. intros ext Hin. vm_compute in Hin.
    destruct Hin as [<-|[<-|[<-|[<-|[<-|[]]]]]]; reflexivity.
  - intros H.
    apply (proj1 (get_local_image_not_found_iff Disk disk_world (py "covers")
                    (py "abcdef") disk0 [] ltac:(in_tuple))
             (py "output/images") disk0 eq_refl) in H.
    destruct H as [H|H]; [vm_compute in H; discriminate H|].
    specialize (H (py ".png") ltac:(in_tuple)). vm_compute in H. discriminate H.
  - apply (proj1 (proj2 (get_local_image_not_found_iff Disk broken_world (py "avatars")
                           (py "abcdef") disk0 [] ltac:(in_tuple)))
             (py "Permission denied") disk0 eq_refl).
Defined.

Lemma get_local_image_content_type_witness :
  fst (get_local_image disk_world (py "avatars") (py "0f12") (disk0, []))
  = inr served_avatar
  /\ exists base st1 ext,
       get_output_path disk_world (py "images") disk0 = (inr base, st1)
       /\ In ext EXTENSIONS
       /\ path served_avatar
          = img_path (img_dir base (py "avatars") (py "0f12")) (py "0f12") ext
       /\ os_path_exists disk_world (path served_avatar) st1 = true
       /\ media_type served_avatar = content_type ext.
Proof.
  assert (H : fst (get_local_image disk_world (py "avatars") (py "0f12") (disk0, []))
              = inr served_avatar) by (vm_compute; reflexivity).
  split; [exact H|].
  exact (proj2 (get_local_image_content_type Disk disk_world (py "avatars") (py "0f12")
                  disk0 [] served_avatar H)).
Defined.

Lemma get_local_image_short_hash_witness :
  sub_dir (py "a") = py "a"
  /\ os_path_join (os_path_join (py "output/images") (py "covers")) (py "a")
     = py "output/images/covers/a"
  /\ NotFound (fst (get_local_image disk_world (py "covers") (py "a") (disk0, []))).
Proof.
  destruct (get_local_image_short_hash Disk disk_world (py "covers") (py "a")
              (py "output/images") disk0 disk0 [] ltac:(in_tuple)
              ltac:(vm_compute; lia) eq_refl) as (H1 & H2 & _).
  split; [exact H1|]. split; [reflexivity|].
  apply H2. left. reflexivity.
Defined.

Lemma clear_images_reports_witness :
  exists d,
    fst (clear_images disk_world (disk0, [])) = inr (PDict d)
    /\ dict_get (py "status") d = Some (PStr (py "success")).
Proof.
  destruct (clear_images_reports Disk disk_world disk0
              {| existing := []; locked := []; total := 0 |} [] true eq_refl)
    as (d & E & Hs & _).
  exists d. rewrite E. split; [reflexivity | exact Hs].
Defined.

(** C10 as stated fails where [clear_all_images()] is interrupted: the
    exception is outside Exception, the clause of line 64 does not match it
    and it leaves [clear_images]. *)
Lemma interrupt_escapes_clear :
  fst (clear_images interrupted_world (disk0, [])) = inl (BaseException (py ""))
  /\ ~ always_answers interrupted_world disk0.
Proof.
  split; [reflexivity|]. intros (d & s' & E & _).
  vm_compute in E. discriminate E.
Qed.

Lemma clear_images_catches_exceptions_witness :
  exists d,
    fst (clear_images broken_world (disk0, [])) = inr (PDict d)
    /\ dict_get (py "status") d = Some (PStr (py "error")).
Proof.
  destruct (clear_images_catches_exceptions Disk broken_world disk0 [])
    as (d & s' & E & Hs).
  - intros e st' H. vm_compute in H. injection H as <- _. reflexivity.
  - exists d. rewrite E. split; [reflexivity|].
    destruct Hs as [Hs|Hs]; [|exact Hs].
    vm_compute in E. injection E as <- _. vm_compute in Hs. discriminate Hs.
Defined.

(** C7 as stated fails: two partial failures that removed different
    directories get the same response, so no reading of the response tells
    what was cleared. *)
Lemma clear_images_hides_partial_failure :
  partial_failure disk_world disk_locked_covers
  /\ partial_failure disk_world disk_locked_avatars
  /\ cleared_by disk_world disk_locked_covers = [py "output/images/avatars"]
  /\ cleared_by disk_world disk_locked_avatars = [py "output/images/covers"]
  /\ fst (clear_images disk_world (disk_locked_covers, []))
     = fst (clear_images disk_world (disk_locked_avatars, []))
  /\ ~ reports_partial_success disk_world.
Proof.
  assert (P1 : partial_failure disk_world disk_locked_covers)
    by (split; vm_compute; discriminate).
  assert (P2 : partial_failure disk_world disk_locked_avatars)
    by (split; vm_compute; discriminate).
  split; [exact P1|]. split; [exact P2|].
  do 3 (split; [vm_compute; reflexivity|]).
  intros [decode H].
  pose proof (H disk_locked_covers _ _ P1 eq_refl) as H1.
  pose proof (H disk_locked_avatars _ _ P2 eq_refl) as H2.
  vm_compute in H1, H2. rewrite H1 in H2. discriminate H2.
Qed.

Lemma clear_images_failure_is_uniform_witness :
  fst (clear_images disk_world (disk_locked_covers, []))
  = inr (PDict [ (py "status", PStr (py "error"));
                 (py "message", PStr (py "清空图片失败，请查看日志了解详细信息")) ]).
Proof.
  rewrite (clear_images_failure_is_uniform Disk disk_world disk_locked_covers
             (snd (spec_clear_all_images disk_locked_covers)) [] eq_refl).
  reflexivity.
Defined.

(** * Further properties of the handlers *)

(** ** More on strings *)

Lemma startswith_app (p x : pystr) : startswith (p ++ x) p = true.
Proof.
  induction p as [|c p IH]; simpl; [now destruct x|].
  now rewrite N.eqb_refl.
Qed.

Lemma slice_from_app (p x : pystr) : slice_from (List.length p) (p ++ x) = x.
Proof. unfold slice_from. induction p as [|c p IH]; simpl; [reflexivity | exact IH]. Qed.

Lemma endswith_app_self (a b : pystr) : endswith (a ++ b) b = true.
Proof. unfold endswith. rewrite rev_app_distr. apply startswith_app. Qed.

Lemma endswith_self (b : pystr) : endswith b b = true.
Proof. exact (endswith_app_self [] b). Qed.

(** Whatever precedes it, the last component survives [os.path.join]. *)
Lemma os_path_join_endswith (a b : pystr) : endswith (os_path_join a b) b = true.
Proof.
  unfold os_path_join. destruct (startswith b sep).
  - apply endswith_self.
  - destruct (match a with [] => true | _ :: _ => endswith a sep end).
    + apply endswith_app_self.
    + rewrite app_assoc. apply endswith_app_self.
Qed.

(** ** POST /clear, read by a client *)

Lemma read_outcome_raised (text : pystr) :
  read_outcome
    (PDict [ (py "status", PStr (py "error"));
             (py "message", PStr (py "清空图片时发生错误: " ++ text)) ])
  = Some (Raised text).
Proof. vm_compute. now destruct text. Qed.

(** X3: a client can read off the response of [/clear] how
    [clear_all_images()] ended: returned true, returned false, or raised an
    instance of Exception, and in the last case the text of the exception;
    [clear_images] calls it once and leaves the state it left.  An exception
    outside Exception gives no response: it leaves [clear_images]. *)
Theorem clear_images_outcome_round_trip (St : Type) (W : World St) (st : St)
  (tr : list event) :
  match fst (ImageDownloader.clear_all_images (downloader W) st) with
  | inl (BaseException message) =>
      clear_images W (st, tr)
      = (inl (BaseException message),
         (snd (ImageDownloader.clear_all_images (downloader W) st),
          tr ++ [Call_clear_all_images]))
  | how =>
      exists response,
        clear_images W (st, tr)
        = (inr response,
           (snd (ImageDownloader.clear_all_images (downloader W) st),
            tr ++ [Call_clear_all_images]))
        /\ read_outcome response = Some (outcome_of how)
  end.
Proof.
  rewrite clear_images_run.
  destruct (ImageDownloader.clear_all_images (downloader W) st) as [[e|[|]] st'];
    cbn [fst snd]; [destruct e|..]; try reflexivity;
    eexists; (split; [reflexivity|]); cbn [outcome_of str_exn].
  - apply read_outcome_raised.
  - apply read_outcome_raised.
  - vm_compute. reflexivity.
  - vm_compute. reflexivity.
Qed.

(** ** GET /local: effects *)

Section Effects.

Variable St : Type.
Variable W : World St.

(** A valid category whose images base does not resolve, with its trace. *)
Lemma get_local_image_unresolved_run (image_type file_hash : pystr) (e : exn)
  (st st1 : St) (tr : list event) :
  In image_type IMAGE_TYPES ->
  get_output_path W (py "images") st = (inl e, st1) ->
  get_local_image W image_type file_hash (st, tr)
  = (inl (match e with
          | Exception _ => HTTPException 500 (py "获取图片失败: " ++ str_exn e)
          | _ => e
          end),
     (st1, tr ++ banner image_type file_hash
             ++ Call_get_output_path (py "images")
                  :: (match e with
                      | Exception _ => [Print (py "获取本地图片时出错: " ++ str_exn e)]
                      | _ => []
                      end))).
Proof.
  intros Hin Hget. apply py_in_In in Hin.
  unfold get_local_image. rewrite !bind_emit, Hin. cbn [negb].
  unfold try_except. erewrite bind_call_err by exact Hget.
  destruct e; cbn [isinstance_Exception isinstance_HTTPException].
  - unfold raise, banner. now rewrite <- !app_assoc.
  - rewrite bind_emit. unfold raise, banner. now rewrite <- !app_assoc.
  - unfold banner. now rewrite <- !app_assoc.
Qed.

Lemma probe_events_quiet (st : St) (img_dir file_hash : pystr) (exts : list pystr) :
  existsb is_downloader_call (probe_events W st img_dir file_hash exts) = false
  /\ filter is_get_output_path (probe_events W st img_dir file_hash exts) = []
  /\ (List.length (probed (probe_events W st img_dir file_hash exts))
      <= List.length exts)%nat.
Proof.
  induction exts as [|ext exts (IH1 & IH2 & IH3)]; cbn [probe_events].
  - repeat split. cbn. lia.
  - destruct (os_path_exists W _ st); cbn [existsb filter probed is_downloader_call
                                            is_get_output_path orb List.length].
    + repeat split. lia.
    + repeat split; try assumption. lia.
Qed.

Lemma probed_no_match (st : St) (img_dir file_hash : pystr) (exts : list pystr) :
  first_match W st img_dir file_hash exts = None ->
  probed (probe_events W st img_dir file_hash exts)
  = map (img_path img_dir file_hash) exts.
Proof.
  unfold first_match. induction exts as [|ext exts IH]; cbn [find probe_events map].
  - reflexivity.
  - destruct (os_path_exists W _ st); [discriminate|].
    intros H. cbn [probed]. now rewrite IH.
Qed.

End Effects.

Lemma banner_quiet (image_type file_hash : pystr) :
  existsb is_downloader_call (banner image_type file_hash) = false
  /\ filter is_get_output_path (banner image_type file_hash) = [].
Proof. split; reflexivity. Qed.

(** X4: whatever the request and the world, [get_local_image] first prints
    its three lines, never calls the downloader, calls [get_output_path] at
    most once and [os.path.exists] at most six times, and changes the state
    only through [get_output_path] (not at all for an invalid category). *)
Theorem get_local_image_effects (St : Type) (W : World St)
  (image_type file_hash : pystr) (st : St) (tr : list event) :
  exists delta,
    snd (snd (get_local_image W image_type file_hash (st, tr)))
    = tr ++ banner image_type file_hash ++ delta
    /\ existsb is_downloader_call delta = false
    /\ (List.length (filter is_get_output_path delta) <= 1)%nat
    /\ (List.length (probed delta) <= 6)%nat
    /\ fst (snd (get_local_image W image_type file_hash (st, tr)))
       = if py_in image_type IMAGE_TYPES
         then snd (get_output_path W (py "images") st) else st.
Proof.
  destruct (py_in image_type IMAGE_TYPES) eqn:Hin.
  2:{ exists []. rewrite get_local_image_invalid by assumption.
      cbn [fst snd]. rewrite app_nil_r. repeat split; cbn; lia. }
  apply py_in_In in Hin.
  destruct (get_output_path W (py "images") st) as [[e|base] st1] eqn:Hget.
  - rewrite (get_local_image_unresolved_run St W image_type file_hash e st st1 tr Hin Hget).
    eexists. cbn [fst snd]. split; [reflexivity|].
    destruct e; repeat split; cbn; lia.
  - rewrite (get_local_image_run St W image_type file_hash base st st1 tr Hin Hget).
    cbv zeta.
    destruct (probe_events_quiet St W st1 (img_dir base image_type file_hash) file_hash
                EXTENSIONS) as (Q1 & Q2 & Q3).
    change (List.length EXTENSIONS) with 5%nat in Q3.
    set (dir := img_dir base image_type file_hash) in *.
    set (evs := probe_events W st1 dir file_hash EXTENSIONS) in *.
    assert (Hshape : forall r : exn + FileResponse,
               exists delta,
                 snd (snd (r, (st1, (tr ++ banner image_type file_hash
                                        ++ [Call_get_output_path (py "images");
                                            PathExists dir]) ++ evs)))
                 = tr ++ banner image_type file_hash ++ delta
                 /\ existsb is_downloader_call delta = false
                 /\ (List.length (filter is_get_output_path delta) <= 1)%nat
                 /\ (List.length (probed delta) <= 6)%nat
                 /\ fst (snd (r, (st1, (tr ++ banner image_type file_hash
                                        ++ [Call_get_output_path (py "images");
                                            PathExists dir]) ++ evs))) = st1).
    { intros r. exists ([Call_get_output_path (py "images"); PathExists dir] ++ evs).
      cbn [fst snd]. split; [now rewrite <- !app_assoc|].
      cbn [app existsb filter probed is_downloader_call is_get_output_path orb
             List.length].
      rewrite Q1, Q2. repeat split. cbn. lia. lia. }
    destruct (os_path_exists W dir st1).
    + destruct (first_match W st1 dir file_hash EXTENSIONS); apply Hshape.
    + exists [Call_get_output_path (py "images"); PathExists dir].
      cbn [fst snd]. repeat split; cbn; lia.
Qed.

(** ** GET /local: failures and lookups *)

(** X6: when the images base resolves and the lookup ends in NotFound, the
    exception is the same for both causes (its detail names the hash), and
    the existence checks are: the directory alone if it is absent, else the
    directory and then all five extensions in the order of the list. *)
Theorem get_local_image_not_found_probes (St : Type) (W : World St)
  (image_type file_hash base : pystr) (st st1 : St) (tr : list event) :
  In image_type IMAGE_TYPES ->
  get_output_path W (py "images") st = (inr base, st1) ->
  NotFound (fst (get_local_image W image_type file_hash (st, tr))) ->
  fst (get_local_image W image_type file_hash (st, tr))
  = inl (HTTPException 404 (py "图片不存在: " ++ file_hash))
  /\ probed (snd (snd (get_local_image W image_type file_hash (st, tr))))
     = probed tr
         ++ (if os_path_exists W (img_dir base image_type file_hash) st1
             then img_dir base image_type file_hash
                    :: map (img_path (img_dir base image_type file_hash) file_hash)
                         EXTENSIONS
             else [img_dir base image_type file_hash]).
Proof.
  intros Hin Hget.
  rewrite (get_local_image_run St W image_type file_hash base st st1 tr Hin Hget).
  cbv zeta. destruct (os_path_exists W _ st1).
  - destruct (first_match W st1 _ file_hash EXTENSIONS) eqn:E; cbn [fst snd].
    + intros [d Hd]. discriminate.
    + intros _. split; [reflexivity|].
      rewrite !probed_app, probed_banner, (probed_no_match St W _ _ _ _ E).
      cbn [probed app]. now rewrite <- app_assoc.
  - cbn [fst snd]. intros _. split; [reflexivity|].
    rewrite !probed_app, probed_banner. reflexivity.
Qed.

(** X7: whatever the hash (even one that [os.path.join] treats as absolute),
    a served path ends with the requested hash followed by an extension of
    the list, and the media type is one of image/jpeg, image/png, image/webp,
    image/gif. *)
Theorem get_local_image_serves_image (St : Type) (W : World St)
  (image_type file_hash : pystr) (st : St) (tr : list event)
  (response : FileResponse) :
  fst (get_local_image W image_type file_hash (st, tr)) = inr response ->
  In (media_type response) MEDIA_TYPES
  /\ exists ext,
       In ext EXTENSIONS /\ endswith (path response) (file_hash ++ ext) = true.
Proof.
  intros Hr.
  destruct (py_in image_type IMAGE_TYPES) eqn:Hin.
  2:{ rewrite get_local_image_invalid in Hr by assumption. discriminate. }
  apply py_in_In in Hin.
  destruct (get_output_path W (py "images") st) as [[e|base] st1] eqn:Hget.
  { rewrite (get_local_image_unresolved St W image_type file_hash e st st1 tr Hin Hget)
      in Hr. discriminate. }
  rewrite (get_local_image_run St W image_type file_hash base st st1 tr Hin Hget) in Hr.
  cbv zeta in Hr.
  destruct (os_path_exists W _ st1); [|discriminate].
  destruct (first_match W st1 _ file_hash EXTENSIONS) as [ext|] eqn:E; [|discriminate].
  cbn [fst] in Hr. injection Hr as <-. apply find_some in E as [He _].
  cbn [path media_type response_for]. split.
  - destruct He as [<-|[<-|[<-|[<-|[<-|[]]]]]]; vm_compute; tauto.
  - exists ext. split; [assumption | apply os_path_join_endswith].
Qed.

(** ** GET /local: distinct requests, distinct files *)

Lemma rev_eq_inv (a b : pystr) : rev a = rev b -> a = b.
Proof. intros H. now rewrite <- (rev_involutive a), H, rev_involutive. Qed.

(** No extension of the list is the end of a name built with another. *)
Lemma hash_ext_unique (h h' e e' : pystr) :
  In e EXTENSIONS -> In e' EXTENSIONS -> h ++ e = h' ++ e' -> h = h' /\ e = e'.
Proof.
  intros He He' H. apply (f_equal (@rev N)) in H. rewrite !rev_app_distr in H.
  destruct He as [<-|[<-|[<-|[<-|[<-|[]]]]]];
    destruct He' as [<-|[<-|[<-|[<-|[<-|[]]]]]];
    vm_compute in H;
    first [ discriminate H
          | split; [apply rev_eq_inv; vm_compute; congruence | reflexivity] ].
Qed.

Lemma split_at_sep (a a' x x' : pystr) :
  ~ In 47%N a -> ~ In 47%N a' -> a ++ sep ++ x = a' ++ sep ++ x' ->
  a = a' /\ x = x'.
Proof.
  change sep with [47%N]. revert a'.
  induction a as [|c a IH]; intros [|c' a'] Ha Ha' H; cbn [app] in H.
  - injection H as ->. now split.
  - injection H as <- _. exfalso. apply Ha'. now left.
  - injection H as -> _. exfalso. apply Ha. now left.
  - injection H as -> H.
    destruct (IH a') as [-> ->]; try assumption.
    + intros X. apply Ha. now right.
    + intros X. apply Ha'. now right.
    + now split.
Qed.

(** X8: the path string handed to [os.path.exists] determines the request:
    for a directory-name base, valid categories, hashes that are path
    segments and extensions of the list, equal path strings come from equal
    category, hash and extension.  (This is about strings: a hash such as
    [..x] makes different strings that one file system resolves alike.) *)
Theorem img_path_injective (base type1 type2 hash1 hash2 ext1 ext2 : pystr) :
  directory_name base ->
  In type1 IMAGE_TYPES -> In type2 IMAGE_TYPES ->
  path_segment hash1 -> path_segment hash2 ->
  In ext1 EXTENSIONS -> In ext2 EXTENSIONS ->
  img_path (img_dir base type1 hash1) hash1 ext1
  = img_path (img_dir base type2 hash2) hash2 ext2 ->
  type1 = type2 /\ hash1 = hash2 /\ ext1 = ext2.
Proof.
  intros Hb Ht1 Ht2 Hs1 Hs2 He1 He2 H.
  rewrite !img_path_layout in H by assumption.
  unfold layout, layout_dir in H. rewrite <- !app_assoc in H.
  apply app_inv_head in H.
  assert (Hn : forall t, In t IMAGE_TYPES -> ~ In 47%N t).
  { intros t [<-|[<-|[]]]; vm_compute; intuition discriminate. }
  assert (Hsub : forall h, path_segment h -> ~ In 47%N (slice_to 2 h)).
  { intros h [_ Hh] X. apply Hh. eapply In_slice_to, X. }
  apply app_inv_head in H.
  apply split_at_sep in H as [-> H]; auto.
  apply split_at_sep in H as [_ H]; auto.
  apply hash_ext_unique in H as [-> ->]; auto.
Qed.

(** ** POST /start: the message names the year *)

Lemma utf8_decode_ascii (bs : list N) :
  Forall (fun b => (b < 128)%N) bs -> utf8_decode bs = bs.
Proof.
  induction 1 as [|b bs Hb _ IH]; cbn [utf8_decode]; [reflexivity|].
  apply N.ltb_lt in Hb. now rewrite Hb, IH.
Qed.

Lemma uint_digits_ascii (d : Decimal.uint) :
  Forall (fun b => (b < 128)%N)
    (map N_of_ascii (list_ascii_of_string (NilEmpty.string_of_uint d))).
Proof.
  induction d; cbn [NilEmpty.string_of_uint list_ascii_of_string map];
    constructor; (reflexivity || assumption).
Qed.

Lemma int_digits_ascii (d : Decimal.int) :
  Forall (fun b => (b < 128)%N)
    (map N_of_ascii (list_ascii_of_string (NilZero.string_of_int d))).
Proof.
  assert (U : forall u, Forall (fun b => (b < 128)%N)
                (map N_of_ascii (list_ascii_of_string (NilZero.string_of_uint u)))).
  { intros u. destruct u; try apply uint_digits_ascii.
    repeat constructor. }
  destruct d as [u|u]; cbn [NilZero.string_of_int list_ascii_of_string map].
  - apply U.
  - constructor; [reflexivity | apply U].
Qed.

Lemma N_of_ascii_inj (a b : ascii) : N_of_ascii a = N_of_ascii b -> a = b.
Proof.
  intros H. now rewrite <- (ascii_N_embedding a), H, ascii_N_embedding.
Qed.

Lemma map_N_of_ascii_inj (l l' : list ascii) :
  map N_of_ascii l = map N_of_ascii l' -> l = l'.
Proof.
  revert l'. induction l as [|a l IH]; intros [|b l'] H; try discriminate.
  - reflexivity.
  - injection H as H1 H2. apply N_of_ascii_inj in H1. apply IH in H2. congruence.
Qed.

Lemma list_ascii_of_string_inj (s s' : string) :
  list_ascii_of_string s = list_ascii_of_string s' -> s = s'.
Proof.
  intros H.
  now rewrite <- (string_of_list_ascii_of_string s), H, string_of_list_ascii_of_string.
Qed.

Lemma to_int_proper (i : Z) : Z.to_int i <> Decimal.Pos Decimal.Nil
                              /\ Z.to_int i <> Decimal.Neg Decimal.Nil.
Proof.
  destruct i as [|p|p]; cbn [Z.to_int]; split; try discriminate;
    intros H; injection H as H; exact (DecimalPos.Unsigned.to_uint_nonnil p H).
Qed.

(** [str(i)] tells the integers apart. *)
Lemma str_of_int_inj (i j : Z) : str_of_int i = str_of_int j -> i = j.
Proof.
  unfold str_of_int, py. intros H.
  rewrite !utf8_decode_ascii in H by apply int_digits_ascii.
  apply map_N_of_ascii_inj, list_ascii_of_string_inj in H.
  apply DecimalZ.to_int_inj.
  destruct (to_int_proper i) as [Hi1 Hi2]. destruct (to_int_proper j) as [Hj1 Hj2].
  pose proof (NilZero.isi (Z.to_int i) Hi1 Hi2) as Ei.
  pose proof (NilZero.isi (Z.to_int j) Hj1 Hj2) as Ej.
  rewrite H in Ei. rewrite Ei in Ej. now injection Ej.
Qed.

(** X2: the acknowledgment of [/start] names the request: two calls whose
    responses carry the same message were made with the same year argument
    (the same integer, or both omitted). *)
Theorem start_download_message_names_year (St : Type)
  (year1 year2 : option Z) (tasks1 tasks2 : BackgroundTasks)
  (s1 s2 : St * list event) (d1 d2 : list (pystr * pyval))
  (queue1 queue2 : BackgroundTasks) :
  fst (start_download tasks1 year1 s1) = inr (PDict d1, queue1) ->
  fst (start_download tasks2 year2 s2) = inr (PDict d2, queue2) ->
  dict_get (py "message") d1 = dict_get (py "message") d2 ->
  year1 = year2.
Proof.
  unfold start_download, ret. cbn [fst]. intros H1 H2 H.
  injection H1 as <- _. injection H2 as <- _.
  cbn [dict_get] in H.
  change (str_eqb (py "message") (py "status")) with false in H.
  change (str_eqb (py "message") (py "message")) with true in H.
  cbv iota in H. injection H as H. apply app_inv_tail in H.
  destruct year1 as [y1|], year2 as [y2|].
  - apply app_inv_tail in H. f_equal. now apply str_of_int_inj.
  - apply (f_equal (@rev N)) in H. rewrite rev_app_distr in H. vm_compute in H.
    discriminate H.
  - apply (f_equal (@rev N)) in H. rewrite rev_app_distr in H. vm_compute in H.
    discriminate H.
  - reflexivity.
Qed.

(** ** The further properties at concrete requests *)

Lemma start_download_message_names_year_witness :
  Some 2023%Z = Some 2023%Z.
Proof.
  apply (start_download_message_names_year Disk (Some 2023%Z) (Some 2023%Z) [] []
           (disk0, []) (disk0, [])
           [ (py "status", PStr (py "success"));
             (py "message", PStr (py "开始下载2023年的图片")) ]
           [ (py "status", PStr (py "success"));
             (py "message", PStr (py "开始下载2023年的图片")) ]
           [downloader_start_download (Some 2023%Z)]
           [downloader_start_download (Some 2023%Z)]).
  - vm_compute. reflexivity.
  - vm_compute. reflexivity.
  - reflexivity.
Defined.

Lemma get_local_image_not_found_probes_witness :
  probed (snd (snd (get_local_image disk_world (py "covers") (py "ab0000") (disk0, []))))
  = [ py "output/images/covers/ab"; py "output/images/covers/ab/ab0000.jpg";
      py "output/images/covers/ab/ab0000.jpeg"; py "output/images/covers/ab/ab0000.png";
      py "output/images/covers/ab/ab0000.webp"; py "output/images/covers/ab/ab0000.gif" ].
Proof.
  destruct (get_local_image_not_found_probes Disk disk_world (py "covers") (py "ab0000")
              (py "output/images") disk0 disk0 [] ltac:(in_tuple)
              ltac:(vm_compute; reflexivity)
              ltac:(eexists; vm_compute; reflexivity)) as [_ H].
  rewrite H. vm_compute. reflexivity.
Defined.

Lemma get_local_image_serves_image_witness :
  In (media_type served_avatar) MEDIA_TYPES
  /\ exists ext,
       In ext EXTENSIONS /\ endswith (path served_avatar) (py "0f12" ++ ext) = true.
Proof.
  assert (H : fst (get_local_image disk_world (py "avatars") (py "0f12") (disk0, []))
              = inr served_avatar) by (vm_compute; reflexivity).
  exact (get_local_image_serves_image Disk disk_world (py "avatars") (py "0f12") disk0 []
           served_avatar H).
Defined.

Lemma img_path_injective_witness :
  py "avatars" = py "avatars" /\ py "0f12" = py "0f12" /\ py ".jpeg" = py ".jpeg".
Proof.
  apply (img_path_injective (py "output/images") (py "avatars") (py "avatars")
           (py "0f12") (py "0f12") (py ".jpeg") (py ".jpeg")).
  - split; [discriminate | reflexivity].
  - in_tuple.
  - in_tuple.
  - split; [discriminate | vm_compute; intuition discriminate].
  - split; [discriminate | vm_compute; intuition discriminate].
  - in_tuple.
  - in_tuple.
  - reflexivity.
Defined.
